(** * Dynamic Situational Awareness (Qt): list model, alert source, viewed alerts

    A shallow embedding of three translation units of the application:

    - [DataItemListModel.cpp]: the list model of locally opened data files
      and the [DataItem] constructor that classifies a file by extension;
    - [AlertSource.cpp]: the destructor of the abstract alert source;
    - [ViewedAlertsController.cpp]: the count of active, unviewed alerts.

    C++ [int] values are integers in [Z]; a [QString] is a [string]; a
    [QList] is a [list]; a pointer that may be null is an [option].  The
    Qt classes the code calls ([QString], [QFileInfo], [QList], [QObject])
    are modelled after their documented behaviour in the modules [QString],
    [QFileInfo] and [QList] below; signals are recorded as traces of events. *)

From Stdlib Require Import ZArith List String Ascii Bool Lia.
From Equations Require Import Equations.
Import ListNotations.

Local Open Scope string_scope.
Local Open Scope Z_scope.

(** ** C++ [int] *)

Definition INT_MIN : Z := - 2 ^ 31.
Definition INT_MAX : Z := 2 ^ 31 - 1.

(** The values an [int] can hold. *)
Definition int_range (z : Z) : Prop := INT_MIN <= z <= INT_MAX.

(** ** Qt strings *)

Module QString.

(** A [QString] is modelled as a [string] of 8-bit characters.  Case mapping
    is the one of the ASCII letters: all other characters are their own
    lower case and their own case folding. *)

Definition isUpper (c : ascii) : bool :=
  let n := nat_of_ascii c in (Nat.leb 65 n && Nat.leb n 90)%bool.

(** [QChar::toLower]. *)
Definition toLowerChar (c : ascii) : ascii :=
  if isUpper c then ascii_of_nat (nat_of_ascii c + 32) else c.

(** [QString::toLower]. *)
Fixpoint toLower (s : string) : string :=
  match s with
  | EmptyString => EmptyString
  | String c r => String (toLowerChar c) (toLower r)
  end.

Inductive CaseSensitivity := CaseInsensitive | CaseSensitive.

(** The character as [compare] sees it under the given sensitivity. *)
Definition foldChar (cs : CaseSensitivity) (c : ascii) : ascii :=
  match cs with
  | CaseInsensitive => toLowerChar c
  | CaseSensitive => c
  end.

(** [QString::compare(other, cs)]: lexical comparison; the result is
    negative, zero or positive.  The first position where the (folded)
    characters differ decides; a proper prefix is smaller. *)
Fixpoint compare (a b : string) (cs : CaseSensitivity) : Z :=
  match a, b with
  | EmptyString, EmptyString => 0
  | EmptyString, String _ _ => -1
  | String _ _, EmptyString => 1
  | String x a', String y b' =>
      let d := Z.of_nat (nat_of_ascii (foldChar cs x))
               - Z.of_nat (nat_of_ascii (foldChar cs y)) in
      if d =? 0 then compare a' b' cs else d
  end.

(** [operator==(const QString&, const char* )]: exact equality. *)
Definition eq (a b : string) : bool := String.eqb a b.

(** [QStringList::contains(str)] with the default [Qt::CaseSensitive]. *)
Definition list_contains (l : list string) (s : string) : bool :=
  existsb (fun x => eq x s) l.

(** Equality up to the case of the letters. *)
Definition eq_ignore_case (a b : string) : Prop := toLower a = toLower b.

End QString.

(** ** [QFileInfo] *)

Module QFileInfo.

(** The part of [s] after its last ['/'], or [acc] when there is none. *)
Fixpoint afterLastSlash (s acc : string) : string :=
  match s with
  | EmptyString => acc
  | String c r =>
      if Ascii.eqb c "/" then afterLastSlash r r else afterLastSlash r acc
  end.

(** [QFileInfo::fileName]: the name of the file, excluding the path. *)
Definition fileName (filePath : string) : string :=
  afterLastSlash filePath filePath.

(** The part of [s] after its first ['.'], empty when there is none. *)
Fixpoint afterFirstDot (s : string) : string :=
  match s with
  | EmptyString => EmptyString
  | String c r => if Ascii.eqb c "." then r else afterFirstDot r
  end.

(** [QFileInfo::completeSuffix]: all characters of the file name after
    (but not including) the first ['.']. *)
Definition completeSuffix (filePath : string) : string :=
  afterFirstDot (fileName filePath).

(** The string holds the character [c]. *)
Fixpoint contains (c : ascii) (s : string) : bool :=
  match s with
  | EmptyString => false
  | String x r => (Ascii.eqb x c || contains c r)%bool
  end.

End QFileInfo.

(** ** [QList] *)

(** Outcome of an indexed container access: the element, or an access
    outside the container ([Q_ASSERT_X "index out of range"] in a debug
    build, undefined behaviour otherwise). *)
Inductive Access (A : Type) : Type :=
| Value (a : A)
| OutOfRange.
Arguments Value {A} a.
Arguments OutOfRange {A}.

Definition bindAccess {A B} (x : Access A) (k : A -> Access B) : Access B :=
  match x with
  | Value a => k a
  | OutOfRange => OutOfRange
  end.

Notation "x <- e ;; k" := (bindAccess e (fun x => k))
  (at level 61, e at next level, right associativity).

Module QList.

(** [count()] and [size()]: the number of elements, an [int]. *)
Definition count {A} (l : list A) : Z := Z.of_nat (List.length l).
Definition size {A} (l : list A) : Z := Z.of_nat (List.length l).

(** [QList::at(i)] and the const [operator[]]: [i] must be a valid index
    position, [0 <= i < size()]. *)
Definition at_ {A} (l : list A) (i : Z) : Access A :=
  if ((i <? 0) || (i >=? size l))%bool then OutOfRange
  else match nth_error l (Z.to_nat i) with
       | Some a => Value a
       | None => OutOfRange
       end.

Definition append {A} (l : list A) (x : A) : list A := (l ++ [x])%list.
Definition clear {A} (l : list A) : list A := [].

End QList.

(** ** [QHash<int, QByteArray>] *)

Module QHash.

(** A hash holds at most one value per key. *)
Definition empty : list (Z * string) := [].

(** [h[key] = value]: the key is inserted, or its value replaced. *)
Definition assign (h : list (Z * string)) (key : Z) (value : string)
  : list (Z * string) :=
  (key, value) :: filter (fun kv => negb (fst kv =? key)) h.

(** [h.value(key)], with [None] for the default-constructed value of a
    key that is not in the hash. *)
Definition value (h : list (Z * string)) (key : Z) : option string :=
  match find (fun kv => fst kv =? key) h with
  | Some kv => Some (snd kv)
  | None => None
  end.

(** [h.keys()]. *)
Definition keys (h : list (Z * string)) : list Z := map fst h.

End QHash.

(** ** [DataItemListModel] *)

Module DataItemListModel.

(** Modelled from the spec: the enumeration [DataType] is declared in a
    header that is not part of the sources; its values are the ones the
    constructor of [DataItem] assigns. *)
Inductive DataType :=
| Geodatabase | TilePackage | Shapefile | GeoPackage | SceneLayerPackage
| VectorTilePackage | Markup | Kml | Raster | Unknown.

Record DataItem := mkDataItem {
  fullPath : string;
  fileName : string;
  dataType : DataType
}.

(** [DataItemListModel::DataItem::DataItem(const QString& fullPath)]. *)
Definition DataItem_ctor (fullPath : string) : DataItem :=
  (* set the file name *)
  let fileName := QFileInfo.fileName fullPath in
  (* determine the layer type *)
  let fileExtension := QFileInfo.completeSuffix fullPath in
  let rasterExtensions :=
    ["img"; "tif"; "tiff"; "i1"; "dt0"; "dt1"; "dt2"; "tc2"; "geotiff";
     "hr1"; "jpg"; "jpeg"; "jp2"; "ntf"; "png"; "i21"; "sid"] in
  let dataType :=
    if QString.eq fileExtension "geodatabase" then Geodatabase
    else if QString.compare fileExtension "tpk" QString.CaseInsensitive =? 0
    then TilePackage
    else if QString.compare fileExtension "shp" QString.CaseInsensitive =? 0
    then Shapefile
    else if QString.compare fileExtension "gpkg" QString.CaseInsensitive =? 0
    then GeoPackage
    else if QString.compare fileExtension "slpk" QString.CaseInsensitive =? 0
    then SceneLayerPackage
    else if QString.compare fileExtension "vtpk" QString.CaseInsensitive =? 0
    then VectorTilePackage
    else if QString.compare fileExtension "markup" QString.CaseInsensitive =? 0
    then Markup
    else if ((QString.compare fileExtension "kml" QString.CaseInsensitive =? 0)
             || (QString.compare fileExtension "kmz" QString.CaseInsensitive =? 0))%bool
    then Kml
    else if QString.list_contains rasterExtensions (QString.toLower fileExtension)
    then Raster
    else Unknown in
  mkDataItem fullPath fileName dataType.

(** Only the row of a [QModelIndex] is read; a default-constructed index
    is invalid and has row and column -1. *)
Record QModelIndex := mkIndex { row : Z; column : Z }.
Definition invalidIndex : QModelIndex := mkIndex (-1) (-1).

Inductive QVariant :=
| Invalid
| OfString (s : string).

(** Calls into [QAbstractListModel] that announce a change to the views. *)
Inductive Notification :=
| BeginInsertRows (parent : QModelIndex) (first last : Z)
| EndInsertRows
| BeginResetModel
| EndResetModel.

Record Model := mkModel {
  m_dataItems : list DataItem;
  notified : list Notification
}.

Definition notify (m : Model) (n : Notification) : Model :=
  mkModel (m_dataItems m) (notified m ++ [n])%list.

Definition setItems (m : Model) (items : list DataItem) : Model :=
  mkModel items (notified m).

(** The model right after construction. *)
Definition newModel : Model := mkModel [] [].

(** [DataItemListModel::rowCount(parent)]; [parent] is unused. *)
Definition rowCount (m : Model) (parent : QModelIndex) : Z :=
  QList.count (m_dataItems m).

(** [DataItemListModel::addDataItem(fullPath)].  [append] converts the
    path to a [DataItem] through the constructor. *)
Definition addDataItem (m : Model) (fullPath : string) : Model :=
  let m := notify m (BeginInsertRows invalidIndex (rowCount m invalidIndex)
                                     (rowCount m invalidIndex)) in
  let m := setItems m (QList.append (m_dataItems m) (DataItem_ctor fullPath)) in
  notify m EndInsertRows.

(** [DataItemListModel::clear()]. *)
Definition clear (m : Model) : Model :=
  let m := notify m BeginResetModel in
  let m := setItems m (QList.clear (m_dataItems m)) in
  notify m EndResetModel.

(** [DataItemListModel::getDataItemType(index)]. *)
Definition getDataItemType (m : Model) (index : Z) : Access DataType :=
  if index >=? QList.size (m_dataItems m) then Value Unknown
  else item <- QList.at_ (m_dataItems m) index ;; Value (dataType item).

(** [DataItemListModel::getDataItemPath(index)]. *)
Definition getDataItemPath (m : Model) (index : Z) : Access string :=
  if index >=? QList.size (m_dataItems m) then Value EmptyString
  else item <- QList.at_ (m_dataItems m) index ;; Value (fullPath item).

Section Roles.

(** The enumeration [DataItemRoles] is declared in a header that is not
    part of the sources: its two values are parameters. *)
Variables FullPathRole FileNameRole : Z.

(** [DataItemListModel::data(index, role)]. *)
Definition data (m : Model) (index : QModelIndex) (role : Z) : Access QVariant :=
  if ((row index <? 0) || (row index >=? QList.count (m_dataItems m)))%bool
  then Value Invalid
  else
    dataItem <- QList.at_ (m_dataItems m) (row index) ;;
    let retVal := Invalid in
    Value (if role =? FullPathRole then OfString (fullPath dataItem)
           else if role =? FileNameRole then OfString (fileName dataItem)
           else retVal).

End Roles.

(** The public operations of the model, and their effect on its state.
    The three accessors and [rowCount] do not write to the model. *)
Inductive Operation :=
| OpAddDataItem (fullPath : string)
| OpClear
| OpRowCount (parent : QModelIndex)
| OpData (FullPathRole FileNameRole : Z) (index : QModelIndex) (role : Z)
| OpGetDataItemType (index : Z)
| OpGetDataItemPath (index : Z).

Definition run (op : Operation) (m : Model) : Access Model :=
  match op with
  | OpAddDataItem p => Value (addDataItem m p)
  | OpClear => Value (clear m)
  | OpRowCount parent => let _ := rowCount m parent in Value m
  | OpData fp fn index role => _ <- data fp fn m index role ;; Value m
  | OpGetDataItemType index => _ <- getDataItemType m index ;; Value m
  | OpGetDataItemPath index => _ <- getDataItemPath m index ;; Value m
  end.

(** The states a model can be in: any sequence of operations from the
    constructed model. *)
Inductive reachable : Model -> Prop :=
| reach_ctor : reachable newModel
| reach_run op m m' : reachable m -> run op m = Value m' -> reachable m'.

(** The extension table in the words of the specification: the exact
    name [geodatabase], then the names compared without regard to case. *)
Definition insensitiveTable : list (string * DataType) :=
  [("tpk", TilePackage); ("shp", Shapefile); ("gpkg", GeoPackage);
   ("slpk", SceneLayerPackage); ("vtpk", VectorTilePackage);
   ("markup", Markup); ("kml", Kml); ("kmz", Kml);
   ("img", Raster); ("tif", Raster); ("tiff", Raster); ("i1", Raster);
   ("dt0", Raster); ("dt1", Raster); ("dt2", Raster); ("tc2", Raster);
   ("geotiff", Raster); ("hr1", Raster); ("jpg", Raster); ("jpeg", Raster);
   ("jp2", Raster); ("ntf", Raster); ("png", Raster); ("i21", Raster);
   ("sid", Raster)].

Fixpoint lookupTable (tbl : list (string * DataType)) (s : string) : DataType :=
  match tbl with
  | [] => Unknown
  | (e, ty) :: rest => if String.eqb e s then ty else lookupTable rest s
  end.

Definition tableType (suffix : string) : DataType :=
  if String.eqb suffix "geodatabase" then Geodatabase
  else lookupTable insensitiveTable (QString.toLower suffix).

Section RoleNames.

Variables FullPathRole FileNameRole : Z.

(** [DataItemListModel::setupRoles()], on the member [m_roles]. *)
Definition setupRoles (m_roles : list (Z * string)) : list (Z * string) :=
  let m_roles := QHash.assign m_roles FullPathRole "fullPath" in
  QHash.assign m_roles FileNameRole "fileName".

(** [m_roles] when the constructor returns: it calls [setupRoles()] on the
    empty hash, and no other member function writes to [m_roles]. *)
Definition constructedRoles : list (Z * string) := setupRoles QHash.empty.

(** [DataItemListModel::roleNames()], on the member [m_roles]. *)
Definition roleNames (m_roles : list (Z * string)) : list (Z * string) :=
  m_roles.

End RoleNames.

(** A view attached to the model, as it follows the notifications: it
    knows a number of rows, or is in the middle of an insertion or of a
    reset. *)
Inductive ViewState :=
| Idle (rows : Z)
| Inserting (rows : Z)
| Resetting.

(** One notification seen by the view.  An insertion is accepted when it
    announces the single row at the end of the rows known; a reset leaves
    the view with no rows; [None] when the notification does not fit. *)
Definition viewStep (v : ViewState) (n : Notification) : option ViewState :=
  match v, n with
  | Idle rows, BeginInsertRows _ first last =>
      if ((first =? rows) && (last =? rows))%bool
      then Some (Inserting rows) else None
  | Inserting rows, EndInsertRows => Some (Idle (rows + 1))
  | Idle _, BeginResetModel => Some Resetting
  | Resetting, EndResetModel => Some (Idle 0)
  | _, _ => None
  end.

Fixpoint viewTrack (v : ViewState) (ns : list Notification) : option ViewState :=
  match ns with
  | [] => Some v
  | n :: rest =>
      match viewStep v n with
      | Some v' => viewTrack v' rest
      | None => None
      end
  end.

End DataItemListModel.

(** ** [AlertSource] *)

Module AlertSource.

(** The signal of [AlertSource] and the one every [QObject] emits from
    its own destructor. *)
Inductive Signal := noLongerValid | destroyed.

Definition Signal_eqb (a b : Signal) : bool :=
  match a, b with
  | noLongerValid, noLongerValid | destroyed, destroyed => true
  | _, _ => false
  end.

(** A dependent is an object with a slot connected to a signal. *)
Definition Receiver := nat.

(** What an observer of the program sees while an object is destroyed. *)
Inductive Event :=
| Emitted (s : Signal)
| SlotInvoked (s : Signal) (r : Receiver)
| ObjectGone.

Record Source := mkSource {
  connections : list (Signal * Receiver)
}.

(** [AlertSource::AlertSource(parent)]: nothing is connected yet. *)
Definition newSource : Source := mkSource [].

(** [QObject::connect] of a slot of [r] to signal [s]. *)
Definition connect (src : Source) (s : Signal) (r : Receiver) : Source :=
  mkSource (connections src ++ [(s, r)])%list.

Definition receivers (src : Source) (s : Signal) : list Receiver :=
  map snd (filter (fun c => Signal_eqb (fst c) s) (connections src)).

(** [emit s()]: the slots connected to [s] run, in connection order,
    before the emitting statement returns. *)
Definition emit (src : Source) (s : Signal) : list Event :=
  Emitted s :: map (SlotInvoked s) (receivers src s).

(** [QObject::~QObject()]: emits [destroyed], then the object is gone. *)
Definition QObject_dtor (src : Source) : list Event :=
  (emit src destroyed ++ [ObjectGone])%list.

(** [AlertSource::~AlertSource()]: the body, then the destructor of the
    base class. *)
Definition dtor (src : Source) : list Event :=
  (emit src noLongerValid ++ QObject_dtor src)%list.

(** Event [a] happens in [trace], and [b] happens only later. *)
Definition happens_before (a b : Event) (trace : list Event) : Prop :=
  exists pre post,
    trace = (pre ++ a :: post)%list /\ ~ In b pre /\ In b post.

(** The receivers whose slot runs for signal [s] in [trace], in order. *)
Fixpoint invoked (s : Signal) (trace : list Event) : list Receiver :=
  match trace with
  | [] => []
  | SlotInvoked s' r :: rest =>
      if Signal_eqb s' s then r :: invoked s rest else invoked s rest
  | _ :: rest => invoked s rest
  end.

End AlertSource.

(** ** [ViewedAlertsController] *)

Module ViewedAlertsController.

(** What the controller reads of an [AlertConditionData]. *)
Record AlertConditionData := mkAlert {
  active : bool;
  viewed : bool
}.

(** What the controller reads of the [AlertListModel]: the number of rows
    and the alert of a row, which may be a null pointer. *)
Record AlertListModel := mkAlertList {
  rowCount : Z;
  alertAt : Z -> option AlertConditionData
}.

(** A list model over a list of alert pointers. *)
Definition ofList (alerts : list (option AlertConditionData)) : AlertListModel :=
  mkAlertList (Z.of_nat (List.length alerts))
              (fun i => if i <? 0 then None
                        else nth (Z.to_nat i) alerts None).

(** The loop of [unviewedCount], from the state [(i, count)].  Both
    counters stay between 0 and [alertsCount], itself an [int], so the
    increments are exact. *)
Equations? unviewedLoop (model : AlertListModel) (alertsCount i count : Z) : Z
  by wf (Z.to_nat (alertsCount - i)) lt :=
  unviewedLoop model alertsCount i count with Z_lt_dec i alertsCount => {
    | left _ with alertAt model i => {
        | None => unviewedLoop model alertsCount (i + 1) count
        | Some alert =>
            if negb (active alert) then unviewedLoop model alertsCount (i + 1) count
            else if viewed alert then unviewedLoop model alertsCount (i + 1) count
            else unviewedLoop model alertsCount (i + 1) (count + 1) }
    | right _ => count }.
Proof. all: lia. Qed.

(** [ViewedAlertsController::unviewedCount()]; [instance] is the result of
    [AlertListModel::instance()], null when there is no list. *)
Definition unviewedCount (instance : option AlertListModel) : Z :=
  match instance with
  | None => 0
  | Some model =>
      let count := 0 in
      let alertsCount := rowCount model in
      unviewedLoop model alertsCount 0 count
  end.

(** The rows of the list. *)
Definition rows (model : AlertListModel) : list Z :=
  map Z.of_nat (seq 0 (Z.to_nat (rowCount model))).

(** Row [i] holds an alert that is active and not viewed. *)
Definition activeUnviewed (model : AlertListModel) (i : Z) : bool :=
  match alertAt model i with
  | Some alert => (active alert && negb (viewed alert))%bool
  | None => false
  end.

(** The number of active, unviewed alerts, as the specification counts. *)
Definition activeUnviewedCount (model : AlertListModel) : Z :=
  Z.of_nat (List.length (filter (activeUnviewed model) (rows model))).

(** The rows from [i] up to, and without, [n]. *)
Definition rowsFrom (i n : Z) : list Z :=
  map Z.of_nat (seq (Z.to_nat i) (Z.to_nat (n - i))).

(** An alert pointer that is not null, active and not viewed. *)
Definition counted (alert : option AlertConditionData) : bool :=
  match alert with
  | Some a => (active a && negb (viewed a))%bool
  | None => false
  end.

(** Signals of the alert list ([QAbstractItemModel]); the constructor
    connects to the first three. *)
Inductive ModelSignal :=
| dataChanged | rowsInserted | rowsRemoved
| rowsMoved | modelReset | layoutChanged.

Definition ModelSignal_eqb (a b : ModelSignal) : bool :=
  match a, b with
  | dataChanged, dataChanged | rowsInserted, rowsInserted
  | rowsRemoved, rowsRemoved | rowsMoved, rowsMoved
  | modelReset, modelReset | layoutChanged, layoutChanged => true
  | _, _ => false
  end.

(** What the controller does that others see. *)
Inductive ControllerEvent :=
| ToolAdded
| unviewedCountChanged.

Record Controller := mkController {
  connected : list ModelSignal;
  events : list ControllerEvent
}.

(** [ViewedAlertsController::ViewedAlertsController(parent)]; [instance] is
    the result of [AlertListModel::instance()]. *)
Definition newController (instance : option AlertListModel) : Controller :=
  let c := mkController [] [ToolAdded] in
  match instance with
  | Some model =>
      let c := mkController (connected c ++ [dataChanged]) (events c) in
      let c := mkController (connected c ++ [rowsInserted]) (events c) in
      let c := mkController (connected c ++ [rowsRemoved]) (events c) in
      mkController (connected c) (events c ++ [unviewedCountChanged])
  | None => c
  end.

(** The alert list emits [s]: each connection of [s] to the signal
    [unviewedCountChanged] emits it once. *)
Definition receive (c : Controller) (s : ModelSignal) : Controller :=
  mkController (connected c)
    (events c ++ map (fun _ => unviewedCountChanged)
                     (filter (ModelSignal_eqb s) (connected c)))%list.

(** How many times the controller has emitted [unviewedCountChanged]. *)
Definition changeCount (c : Controller) : nat :=
  List.length (filter (fun e => match e with
                                | unviewedCountChanged => true
                                | ToolAdded => false
                                end) (events c)).

(** [ViewedAlertsController::toolName()]. *)
Definition toolName : string := "viewed alerts".

End ViewedAlertsController.

(** * Properties *)

(** ** Worked examples *)

Example completeSuffix_of_archive :
  QFileInfo.completeSuffix "/tmp/maps.v2/archive.tar.gz" = "tar.gz"
  /\ QFileInfo.fileName "/tmp/maps.v2/archive.tar.gz" = "archive.tar.gz".
Proof. split; reflexivity. Qed.

Example completeSuffix_without_dot :
  QFileInfo.completeSuffix "/tmp/maps.v2/README" = "".
Proof. reflexivity. Qed.

Example compare_ignores_case :
  QString.compare "KmZ" "kmz" QString.CaseInsensitive = 0
  /\ QString.compare "KmZ" "kmz" QString.CaseSensitive <> 0.
Proof. split; [reflexivity|discriminate]. Qed.

Example classify_geodatabase :
  DataItemListModel.dataType (DataItemListModel.DataItem_ctor "/data/roads.geodatabase")
  = DataItemListModel.Geodatabase.
Proof. reflexivity. Qed.

Example classify_two_dots :
  DataItemListModel.dataType (DataItemListModel.DataItem_ctor "/data/roads.2024.shp")
  = DataItemListModel.Unknown.
Proof. reflexivity. Qed.

Example unviewedCount_of_four :
  ViewedAlertsController.unviewedCount
    (Some (ViewedAlertsController.ofList
             [Some (ViewedAlertsController.mkAlert true false);
              None;
              Some (ViewedAlertsController.mkAlert false false);
              Some (ViewedAlertsController.mkAlert true true)])) = 1.
Proof. reflexivity. Qed.

Example dtor_trace :
  AlertSource.dtor
    (AlertSource.connect AlertSource.newSource AlertSource.noLongerValid 5%nat)
  = [AlertSource.Emitted AlertSource.noLongerValid;
     AlertSource.SlotInvoked AlertSource.noLongerValid 5%nat;
     AlertSource.Emitted AlertSource.destroyed;
     AlertSource.ObjectGone].
Proof. reflexivity. Qed.

(** ** Strings *)

Section QStringFacts.
Import QString.

Lemma nat_of_ascii_diff (x y : ascii) :
  (Z.of_nat (nat_of_ascii x) - Z.of_nat (nat_of_ascii y) =? 0) = Ascii.eqb x y.
Proof.
  destruct (Ascii.eqb_spec x y) as [->|Hne].
  - rewrite Z.sub_diag. reflexivity.
  - apply Z.eqb_neq. intro H. apply Hne.
    rewrite <- (ascii_nat_embedding x), <- (ascii_nat_embedding y).
    f_equal. lia.
Qed.

(** A case-insensitive [compare] is zero exactly when the lower-case
    forms are the same string. *)
Lemma compare_insensitive_zero (a b : string) :
  (compare a b CaseInsensitive =? 0) = String.eqb (toLower a) (toLower b).
Proof.
  revert b. induction a as [|x a IH]; intros [|y b]; simpl; try reflexivity.
  rewrite <- nat_of_ascii_diff.
  destruct (_ - _ =? 0) eqn:Hd.
  - apply IH.
  - exact Hd.
Qed.

Lemma toLower_idempotent (s : string) : toLower (toLower s) = toLower s.
Proof.
  induction s as [|c s IH]; simpl; [reflexivity|].
  rewrite IH. f_equal.
  unfold toLowerChar. destruct (isUpper c) eqn:Hc; [|now rewrite Hc].
  unfold isUpper in *. apply andb_prop in Hc as [Hlo Hhi].
  apply Nat.leb_le in Hlo, Hhi.
  rewrite nat_ascii_embedding by lia.
  replace (Nat.leb (nat_of_ascii c + 32) 90) with false
    by (symmetry; apply Nat.leb_gt; lia).
  now rewrite andb_false_r.
Qed.

End QStringFacts.

(** ** Classification by extension *)

Section Classification.
Import DataItemListModel.

Lemma compare_lower_literal (a b : string) :
  QString.toLower b = b ->
  (QString.compare a b QString.CaseInsensitive =? 0)
  = String.eqb b (QString.toLower a).
Proof.
  intro Hb. rewrite compare_insensitive_zero, Hb. apply String.eqb_sym.
Qed.

Local Opaque String.eqb.

(** The type the constructor assigns is the one the extension table gives
    for the complete suffix of the path. *)
Lemma dataType_tableType (fullPath : string) :
  dataType (DataItem_ctor fullPath) = tableType (QFileInfo.completeSuffix fullPath).
Proof.
  unfold DataItem_ctor, tableType. cbn [dataType].
  generalize (QFileInfo.completeSuffix fullPath) as ext. intro ext.
  unfold QString.eq at 1.
  destruct (String.eqb ext "geodatabase"); [reflexivity|].
  rewrite !compare_lower_literal by reflexivity.
  generalize (QString.toLower ext) as low. intro low.
  unfold QString.list_contains, QString.eq, insensitiveTable.
  cbn [existsb lookupTable].
  repeat match goal with
         | |- context [String.eqb ?e low] =>
             destruct (String.eqb e low); cbn [orb]; [reflexivity|]
         end.
  reflexivity.
Qed.

(** No name of the case-insensitive table is classified as a geodatabase. *)
Lemma lookupTable_not_geodatabase (low : string) :
  lookupTable insensitiveTable low <> Geodatabase.
Proof.
  unfold insensitiveTable. cbn [lookupTable].
  repeat match goal with
         | |- context [String.eqb ?e low] =>
             destruct (String.eqb e low); [discriminate|]
         end.
  discriminate.
Qed.

Local Transparent String.eqb.

(** Each name of the case-insensitive table is found with its own type. *)
Lemma lookupTable_listed (e : string) (ty : DataType) :
  In (e, ty) insensitiveTable ->
  lookupTable insensitiveTable e = ty /\ QString.toLower e = e
  /\ e <> "geodatabase".
Proof.
  unfold insensitiveTable. intro Hin.
  repeat (destruct Hin as [Heq|Hin];
          [injection Heq as <- <-; repeat split; discriminate|]).
  destruct Hin.
Qed.

(** C2: the data type the [DataItem] constructor assigns is a function of
    the complete suffix of the file name alone, namely the entry of the
    fixed extension table for that suffix; [survey.shp] is a shapefile,
    [area.markup] a markup, [image.TIF] a raster and [x.unknownext] is
    unknown. *)
Theorem classification_is_table_lookup :
  (forall fullPath : string,
      dataType (DataItem_ctor fullPath)
      = tableType (QFileInfo.completeSuffix fullPath))
  /\ dataType (DataItem_ctor "survey.shp") = Shapefile
  /\ dataType (DataItem_ctor "area.markup") = Markup
  /\ dataType (DataItem_ctor "image.TIF") = Raster
  /\ dataType (DataItem_ctor "x.unknownext") = Unknown.
Proof.
  split; [exact dataType_tableType|].
  repeat split; reflexivity.
Qed.

(** C4: for the complete suffix of any path, every listed extension other
    than [geodatabase] is matched whatever the case of its letters, while
    the geodatabase type is assigned to the exact lower-case spelling only:
    any other spelling of it is unknown.  [GEODATABASE] is not a
    geodatabase, [SHP] is a shapefile. *)
Theorem suffix_case_sensitivity (fullPath : string) :
  let suffix := QFileInfo.completeSuffix fullPath in
  let ty := dataType (DataItem_ctor fullPath) in
  (forall e listed, In (e, listed) insensitiveTable ->
                    QString.eq_ignore_case suffix e -> ty = listed)
  /\ (ty = Geodatabase <-> suffix = "geodatabase")
  /\ (QString.eq_ignore_case suffix "geodatabase" ->
      suffix <> "geodatabase" -> ty = Unknown)
  /\ dataType (DataItem_ctor "a.GEODATABASE") = Unknown
  /\ dataType (DataItem_ctor "a.SHP") = Shapefile.
Proof.
  intros suffix ty. subst ty. rewrite dataType_tableType. fold suffix.
  unfold tableType, QString.eq_ignore_case.
  repeat split.
  - intros e listed Hin Hcase.
    destruct (lookupTable_listed e listed Hin) as (Hfound & Hlow & Hne).
    rewrite Hlow in Hcase.
    destruct (String.eqb_spec suffix "geodatabase") as [Heq|_].
    + exfalso. apply Hne. rewrite <- Hcase, Heq. reflexivity.
    + rewrite Hcase. exact Hfound.
  - destruct (String.eqb_spec suffix "geodatabase") as [Heq|_]; [easy|].
    intro H. now apply lookupTable_not_geodatabase in H.
  - intros ->. reflexivity.
  - intros Hcase Hne.
    destruct (String.eqb_spec suffix "geodatabase") as [Heq|_]; [easy|].
    rewrite Hcase. reflexivity.
Qed.

(** The suffix [SHP] of [a.SHP] is the table's [shp] up to case. *)
Lemma suffix_case_sensitivity_witness :
  dataType (DataItem_ctor "a.SHP") = Shapefile
  /\ dataType (DataItem_ctor "db.GeoDatabase") = Unknown.
Proof.
  split.
  - apply (proj1 (suffix_case_sensitivity "a.SHP") "shp" Shapefile).
    + simpl. tauto.
    + reflexivity.
  - apply (proj1 (proj2 (proj2 (suffix_case_sensitivity "db.GeoDatabase")))).
    + reflexivity.
    + discriminate.
Defined.

End Classification.

(** ** The list model *)

Lemma geb_true (n m : Z) : m <= n -> (n >=? m) = true.
Proof. intro H. rewrite Z.geb_leb. apply Z.leb_le. exact H. Qed.

Lemma geb_false (n m : Z) : n < m -> (n >=? m) = false.
Proof. intro H. rewrite Z.geb_leb. apply Z.leb_gt. exact H. Qed.

Section ListAccess.
Context {A : Type}.

Lemma at_in_range (l : list A) (i : Z) :
  0 <= i < QList.size l ->
  exists a, nth_error l (Z.to_nat i) = Some a /\ QList.at_ l i = Value a.
Proof.
  unfold QList.at_, QList.size. intros [Hlo Hhi].
  replace (i <? 0) with false by (symmetry; apply Z.ltb_ge; lia).
  replace (i >=? Z.of_nat (List.length l)) with false
    by (symmetry; apply geb_false; lia).
  cbn [orb].
  destruct (nth_error l (Z.to_nat i)) as [a|] eqn:Hnth.
  - exists a. split; reflexivity.
  - apply nth_error_None in Hnth. lia.
Qed.

Lemma at_negative (l : list A) (i : Z) : i < 0 -> QList.at_ l i = OutOfRange.
Proof.
  unfold QList.at_. intro Hi.
  replace (i <? 0) with true by (symmetry; apply Z.ltb_lt; lia).
  reflexivity.
Qed.

End ListAccess.

Section ModelFacts.
Import DataItemListModel.

Lemma items_addDataItem (m : Model) (p : string) :
  m_dataItems (addDataItem m p) = (m_dataItems m ++ [DataItem_ctor p])%list.
Proof. reflexivity. Qed.

Lemma items_clear (m : Model) : m_dataItems (clear m) = [].
Proof. reflexivity. Qed.

Lemma items_addDataItems (paths : list string) (m : Model) :
  m_dataItems (fold_left addDataItem paths m)
  = (m_dataItems m ++ map DataItem_ctor paths)%list.
Proof.
  revert m. induction paths as [|p paths IH]; intro m; simpl.
  - now rewrite app_nil_r.
  - rewrite IH, items_addDataItem, <- app_assoc. reflexivity.
Qed.

(** Past the end of the list both accessors return their default. *)
Lemma accessors_past_the_end (m : Model) (index : Z) :
  QList.size (m_dataItems m) <= index ->
  getDataItemType m index = Value Unknown
  /\ getDataItemPath m index = Value EmptyString.
Proof.
  intro H. unfold getDataItemType, getDataItemPath.
  replace (index >=? QList.size (m_dataItems m)) with true
    by (symmetry; apply geb_true; lia).
  split; reflexivity.
Qed.

(** Below zero both accessors read the list out of its bounds. *)
Lemma negative_index_reads_outside (m : Model) (index : Z) :
  index < 0 ->
  getDataItemType m index = OutOfRange /\ getDataItemPath m index = OutOfRange.
Proof.
  intro H. unfold getDataItemType, getDataItemPath, QList.size.
  replace (index >=? Z.of_nat (List.length (m_dataItems m))) with false
    by (symmetry; apply geb_false; lia).
  rewrite at_negative by exact H. split; reflexivity.
Qed.

(** C3: on a model holding one item, the accessors called with index -1
    pass the guard [index >= size()] and read [m_dataItems.at(-1)], outside
    the list, where [data] returns an invalid value. *)
Theorem accessors_negative_index_out_of_range :
  let m := addDataItem newModel "survey.shp" in
  getDataItemType m (-1) = OutOfRange
  /\ getDataItemPath m (-1) = OutOfRange
  /\ (forall fp fn role, data fp fn m (mkIndex (-1) 0) role = Value Invalid).
Proof.
  repeat split.
Qed.

(** C7: after [clear()] the model has no rows. *)
Theorem clear_then_rowCount (m : Model) (parent : QModelIndex) :
  rowCount (clear m) parent = 0.
Proof.
  unfold rowCount. rewrite items_clear. reflexivity.
Qed.

Variables FullPathRole FileNameRole : Z.
Hypothesis roles_distinct : FullPathRole <> FileNameRole.

Lemma data_out_of_range (m : Model) (index : QModelIndex) (role : Z) :
  row index < 0 \/ rowCount m invalidIndex <= row index ->
  data FullPathRole FileNameRole m index role = Value Invalid.
Proof.
  unfold DataItemListModel.data, rowCount. intro H.
  replace ((row index <? 0) || (row index >=? QList.count (m_dataItems m)))%bool
    with true; [reflexivity|].
  symmetry. apply orb_true_iff. rewrite Z.ltb_lt, Z.geb_leb, Z.leb_le.
  unfold QList.count, rowCount, QList.count in *. lia.
Qed.

Lemma data_in_range (m : Model) (index : QModelIndex) (role : Z) (item : DataItem) :
  0 <= row index ->
  nth_error (m_dataItems m) (Z.to_nat (row index)) = Some item ->
  data FullPathRole FileNameRole m index role
  = Value (if role =? FullPathRole then OfString (fullPath item)
           else if role =? FileNameRole then OfString (fileName item)
           else Invalid).
Proof.
  intros Hlo Hnth.
  assert (Hhi : row index < QList.size (m_dataItems m)).
  { assert (Hlt : (Z.to_nat (row index) < List.length (m_dataItems m))%nat)
      by (apply nth_error_Some; congruence).
    unfold QList.size. lia. }
  destruct (at_in_range (m_dataItems m) (row index)) as (a & Ha & Hat); [lia|].
  unfold DataItemListModel.data.
  replace ((row index <? 0) || (row index >=? QList.count (m_dataItems m)))%bool
    with false.
  - rewrite Hat. cbn [bindAccess].
    assert (a = item) as -> by congruence. reflexivity.
  - symmetry. apply orb_false_iff. split.
    + apply Z.ltb_ge. lia.
    + apply geb_false. exact Hhi.
Qed.

(** C5: for a row within [0, count), [data] returns the full path of the
    stored item under [FullPathRole], its file name under [FileNameRole]
    and an invalid variant under any other role; for a negative row or a
    row at or past the count it returns an invalid variant. *)
Theorem data_by_role (m : Model) (index : QModelIndex) (role : Z) :
  (0 <= row index < rowCount m invalidIndex ->
   exists item,
     nth_error (m_dataItems m) (Z.to_nat (row index)) = Some item
     /\ data FullPathRole FileNameRole m index FullPathRole = Value (OfString (fullPath item))
     /\ data FullPathRole FileNameRole m index FileNameRole = Value (OfString (fileName item))
     /\ (role <> FullPathRole -> role <> FileNameRole ->
         data FullPathRole FileNameRole m index role = Value Invalid))
  /\ (row index < 0 \/ rowCount m invalidIndex <= row index ->
      data FullPathRole FileNameRole m index role = Value Invalid).
Proof.
  split; [|apply data_out_of_range].
  intros [Hlo Hhi].
  destruct (at_in_range (m_dataItems m) (row index)) as (item & Hnth & _);
    [split; assumption|].
  exists item. split; [exact Hnth|].
  rewrite !(data_in_range m index _ item Hlo Hnth).
  rewrite Z.eqb_refl.
  replace (FileNameRole =? FullPathRole) with false
    by (symmetry; apply Z.eqb_neq; congruence).
  rewrite Z.eqb_refl.
  split; [reflexivity|]. split; [reflexivity|].
  intros H1 H2.
  apply Z.eqb_neq in H1, H2. now rewrite H1, H2.
Qed.

(** C6: [N] calls of [addDataItem] on a model of [k] rows give a model of
    [k + N] rows; row [k + j] holds the [j]-th path appended and its file
    name, and the rows below [k] answer [data] as before. *)
Theorem append_keeps_insertion_order (m : Model) (paths : list string) :
  let m' := fold_left addDataItem paths m in
  let k := rowCount m invalidIndex in
  rowCount m' invalidIndex = k + Z.of_nat (List.length paths)
  /\ (forall (j : nat) (p : string),
         nth_error paths j = Some p ->
         data FullPathRole FileNameRole m' (mkIndex (k + Z.of_nat j) 0) FullPathRole = Value (OfString p)
         /\ data FullPathRole FileNameRole m' (mkIndex (k + Z.of_nat j) 0) FileNameRole
            = Value (OfString (QFileInfo.fileName p)))
  /\ (forall (index : QModelIndex) (role : Z),
         0 <= row index < k -> data FullPathRole FileNameRole m' index role = data FullPathRole FileNameRole m index role).
Proof.
  intros m' k. subst m' k. unfold rowCount, QList.count.
  split; [|split].
  - rewrite items_addDataItems, length_app, length_map. lia.
  - intros j p Hj.
    assert (Hnth : nth_error (m_dataItems (fold_left addDataItem paths m))
                     (Z.to_nat (Z.of_nat (List.length (m_dataItems m)) + Z.of_nat j))
                   = Some (DataItem_ctor p)).
    { rewrite items_addDataItems.
      rewrite <- Nat2Z.inj_add, Nat2Z.id.
      rewrite nth_error_app2 by lia.
      rewrite Nat.add_comm, Nat.add_sub.
      rewrite nth_error_map, Hj. reflexivity. }
    set (index := mkIndex (Z.of_nat (List.length (m_dataItems m)) + Z.of_nat j) 0).
    assert (Hlo : 0 <= row index) by (cbn [row index]; lia).
    rewrite !(data_in_range _ index _ _ Hlo Hnth).
    rewrite Z.eqb_refl.
    replace (FileNameRole =? FullPathRole) with false
      by (symmetry; apply Z.eqb_neq; congruence).
    rewrite Z.eqb_refl. split; reflexivity.
  - intros index role [Hlo Hhi].
    destruct (at_in_range (m_dataItems m) (row index)) as (item & Hnth & _);
      [unfold QList.size; lia|].
    rewrite (data_in_range m index role item Hlo Hnth).
    apply data_in_range; [exact Hlo|].
    rewrite items_addDataItems, nth_error_app1; [exact Hnth|].
    apply nth_error_Some. congruence.
Qed.

End ModelFacts.

(** The roles [Qt::UserRole + 1] and [Qt::UserRole + 2] on a model of two
    files. *)
Lemma data_by_role_witness :
  let m := fold_left DataItemListModel.addDataItem
             ["/data/survey.shp"; "/data/area.markup"] DataItemListModel.newModel in
  DataItemListModel.data 257 258 m (DataItemListModel.mkIndex 1 0) 258
  = Value (DataItemListModel.OfString "area.markup")
  /\ DataItemListModel.data 257 258 m (DataItemListModel.mkIndex 2 0) 257
     = Value DataItemListModel.Invalid.
Proof.
  intro m. split.
  - destruct (proj1 (data_by_role 257 258 ltac:(lia) m
                       (DataItemListModel.mkIndex 1 0) 258)) as (item & Hitem & _ & Hname & _).
    + cbn. lia.
    + injection Hitem as <-. exact Hname.
  - apply (proj2 (data_by_role 257 258 ltac:(lia) m
                    (DataItemListModel.mkIndex 2 0) 257)).
    right. cbn. lia.
Defined.

(** Two files appended to a model that already holds one. *)
Lemma append_keeps_insertion_order_witness :
  let m := DataItemListModel.addDataItem DataItemListModel.newModel "/data/base.tpk" in
  let m' := fold_left DataItemListModel.addDataItem
              ["/data/survey.shp"; "/data/area.markup"] m in
  DataItemListModel.rowCount m' DataItemListModel.invalidIndex = 3
  /\ DataItemListModel.data 257 258 m' (DataItemListModel.mkIndex 2 0) 257
     = Value (DataItemListModel.OfString "/data/area.markup")
  /\ DataItemListModel.data 257 258 m' (DataItemListModel.mkIndex 0 0) 258
     = DataItemListModel.data 257 258 m (DataItemListModel.mkIndex 0 0) 258.
Proof.
  intros m m'.
  pose proof (append_keeps_insertion_order 257 258 ltac:(lia) m
                ["/data/survey.shp"; "/data/area.markup"]) as (Hcount & Hnew & Hold).
  split; [exact Hcount|]. split.
  - exact (proj1 (Hnew 1%nat "/data/area.markup" eq_refl)).
  - apply Hold. cbn. lia.
Defined.

(** ** Stored items are never written to *)

Section Immutability.
Import DataItemListModel.

(** The list of items after an operation that returns. *)
Lemma run_items (op : Operation) (m m' : Model) :
  run op m = Value m' ->
  m_dataItems m' = match op with
                   | OpAddDataItem p => (m_dataItems m ++ [DataItem_ctor p])%list
                   | OpClear => []
                   | _ => m_dataItems m
                   end.
Proof.
  destruct op; cbn [run]; intro H.
  - injection H as <-. reflexivity.
  - injection H as <-. reflexivity.
  - injection H as <-. reflexivity.
  - destruct (data _ _ _ _ _); cbn [bindAccess] in H; [|discriminate].
    injection H as <-. reflexivity.
  - destruct (getDataItemType _ _); cbn [bindAccess] in H; [|discriminate].
    injection H as <-. reflexivity.
  - destruct (getDataItemPath _ _); cbn [bindAccess] in H; [|discriminate].
    injection H as <-. reflexivity.
Qed.


End Immutability.

(** ** Destruction of an alert source *)

Section Destruction.
Import AlertSource.

Lemma gone_not_in_invocations (s : Signal) (rs : list Receiver) :
  ~ In ObjectGone (map (SlotInvoked s) rs).
Proof.
  intro H. apply in_map_iff in H as (r & Hr & _). discriminate.
Qed.

Lemma gone_in_QObject_dtor (src : Source) : In ObjectGone (QObject_dtor src).
Proof.
  unfold QObject_dtor. apply in_or_app. right. left. reflexivity.
Qed.

Lemma connected_receiver (src : Source) (s : Signal) (r : Receiver) :
  In (s, r) (connections src) -> In r (receivers src s).
Proof.
  intro H. unfold receivers.
  change r with (snd (s, r)). apply in_map.
  apply filter_In. split; [exact H|].
  destruct s; reflexivity.
Qed.

(** C9: in the course of the destructor, [noLongerValid] is emitted, and
    the slot of every dependent connected to it is invoked, before the
    object is gone; the object is never gone first. *)
Theorem noLongerValid_before_gone (src : Source) :
  happens_before (Emitted noLongerValid) ObjectGone (dtor src)
  /\ (forall r : Receiver,
         In (noLongerValid, r) (connections src) ->
         happens_before (SlotInvoked noLongerValid r) ObjectGone (dtor src)).
Proof.
  split.
  - exists [], (map (SlotInvoked noLongerValid) (receivers src noLongerValid)
                ++ QObject_dtor src)%list.
    split; [reflexivity|]. split; [intros []|].
    apply in_or_app. right. apply gone_in_QObject_dtor.
  - intros r Hr. apply connected_receiver in Hr.
    destruct (in_split r _ Hr) as (before & after & Hsplit).
    exists (Emitted noLongerValid :: map (SlotInvoked noLongerValid) before),
      (map (SlotInvoked noLongerValid) after ++ QObject_dtor src)%list.
    split; [|split].
    + unfold dtor, emit. rewrite Hsplit, map_app. cbn [map app].
      rewrite <- app_assoc. reflexivity.
    + intros [H|H]; [discriminate|].
      exact (gone_not_in_invocations _ _ H).
    + apply in_or_app. right. apply gone_in_QObject_dtor.
Qed.

End Destruction.

(** A source with two dependents on [noLongerValid] and one on
    [destroyed]. *)
Lemma noLongerValid_before_gone_witness :
  let src := AlertSource.connect
               (AlertSource.connect
                  (AlertSource.connect AlertSource.newSource
                     AlertSource.noLongerValid 1%nat)
                  AlertSource.destroyed 2%nat)
               AlertSource.noLongerValid 3%nat in
  AlertSource.happens_before
    (AlertSource.SlotInvoked AlertSource.noLongerValid 3%nat)
    AlertSource.ObjectGone (AlertSource.dtor src).
Proof.
  intro src.
  apply (proj2 (noLongerValid_before_gone src) 3%nat).
  cbn. tauto.
Defined.

(** ** The count of unviewed alerts *)

Section UnviewedCount.
Import ViewedAlertsController.

Lemma rowsFrom_done (i n : Z) : n <= i -> rowsFrom i n = [].
Proof.
  intro H. unfold rowsFrom.
  replace (Z.to_nat (n - i)) with 0%nat by lia. reflexivity.
Qed.

Lemma rowsFrom_step (i n : Z) :
  0 <= i < n -> rowsFrom i n = i :: rowsFrom (i + 1) n.
Proof.
  intro H. unfold rowsFrom.
  replace (Z.to_nat (n - i)) with (S (Z.to_nat (n - (i + 1)))) by lia.
  cbn [seq map].
  replace (Z.to_nat (i + 1)) with (S (Z.to_nat i)) by lia.
  rewrite Z2Nat.id by lia. reflexivity.
Qed.

(** The loop adds to [count] the number of active, unviewed alerts in the
    rows it has yet to visit. *)
Lemma unviewedLoop_counts (model : AlertListModel) (alertsCount i count : Z) :
  0 <= i ->
  unviewedLoop model alertsCount i count
  = count + Z.of_nat (List.length (filter (activeUnviewed model)
                                          (rowsFrom i alertsCount))).
Proof.
  funelim (unviewedLoop model alertsCount i count); intro Hi.
  all: try (rewrite rowsFrom_done by lia; cbn; lia).
  all: rewrite rowsFrom_step by lia; cbn [filter].
  all: unfold activeUnviewed at 1; rewrite Heq.
  all: try destruct (active alert); try destruct (viewed alert).
  all: cbn [negb andb List.length].
  all: match goal with
       | IH : 0 <= _ -> unviewedLoop _ _ _ ?c = _
         |- unviewedLoop _ _ _ ?c = _ => rewrite IH by lia; lia
       end.
Qed.

Lemma unviewedCount_activeUnviewedCount (model : AlertListModel) :
  unviewedCount (Some model) = activeUnviewedCount model.
Proof.
  unfold unviewedCount, activeUnviewedCount, rows.
  rewrite unviewedLoop_counts by lia.
  unfold rowsFrom. rewrite Z.sub_0_r. reflexivity.
Qed.

Lemma activeUnviewedCount_bounds (model : AlertListModel) :
  0 <= activeUnviewedCount model <= Z.max 0 (rowCount model).
Proof.
  unfold activeUnviewedCount, rows.
  pose proof (filter_length_le (activeUnviewed model)
                (map Z.of_nat (seq 0 (Z.to_nat (rowCount model))))) as Hle.
  rewrite length_map, length_seq in Hle. lia.
Qed.

(** C1: whatever the alert list holds when [unviewedCount] is called, the
    result is the number of its rows whose alert is active and not viewed;
    it is computed from that list alone, and it is a value of type [int]
    whenever the row count is. *)
Theorem unviewedCount_is_active_unviewed (model : AlertListModel) :
  unviewedCount (Some model) = activeUnviewedCount model
  /\ (int_range (rowCount model) -> int_range (unviewedCount (Some model))).
Proof.
  split; [apply unviewedCount_activeUnviewedCount|].
  rewrite unviewedCount_activeUnviewedCount.
  pose proof (activeUnviewedCount_bounds model).
  unfold int_range, INT_MIN, INT_MAX. lia.
Qed.

Lemma filter_seq_nth (alerts : list (option AlertConditionData)) (start : nat) :
  List.length (filter (fun k => counted (nth (k - start) alerts None))
                 (seq start (List.length alerts)))
  = List.length (filter counted alerts).
Proof.
  revert start. induction alerts as [|a alerts IH]; intro start; [reflexivity|].
  assert (Hrest : filter (fun k => counted (nth (k - start) (a :: alerts) None))
                    (seq (S start) (List.length alerts))
                  = filter (fun k => counted (nth (k - S start) alerts None))
                      (seq (S start) (List.length alerts))).
  { apply filter_ext_in. intros k Hk. apply in_seq in Hk.
    replace (k - start)%nat with (S (k - S start)) by lia. reflexivity. }
  cbn [List.length seq filter]. rewrite Hrest, Nat.sub_diag.
  change (nth 0 (a :: alerts) None) with a.
  destruct (counted a); cbn [List.length]; rewrite IH; reflexivity.
Qed.

Lemma activeUnviewedCount_ofList (alerts : list (option AlertConditionData)) :
  activeUnviewedCount (ofList alerts)
  = Z.of_nat (List.length (filter counted alerts)).
Proof.
  unfold activeUnviewedCount, rows. cbn [rowCount ofList].
  rewrite Nat2Z.id. f_equal.
  rewrite <- (filter_seq_nth alerts 0).
  induction (seq 0 (List.length alerts)) as [|k ks IH]; [reflexivity|].
  cbn [map filter].
  replace (activeUnviewed (ofList alerts) (Z.of_nat k))
    with (counted (nth (k - 0) alerts None)).
  - destruct (counted _); cbn [List.length]; rewrite IH; reflexivity.
  - unfold activeUnviewed, counted. cbn [alertAt ofList].
    replace (Z.of_nat k <? 0) with false by (symmetry; apply Z.ltb_ge; lia).
    rewrite Nat2Z.id, Nat.sub_0_r. reflexivity.
Qed.

Lemma filter_none {A : Type} (f : A -> bool) (l : list A) :
  (forall x, In x l -> f x = false) -> filter f l = [].
Proof.
  induction l as [|x l IH]; intro H; [reflexivity|].
  cbn [filter]. rewrite (H x) by (left; reflexivity).
  apply IH. intros y Hy. apply H. right. exact Hy.
Qed.

(** C10: without an alert list the count is 0; a list of null rows counts
    0; and a null row adds nothing: the count is the same as for the list
    without that row. *)
Theorem unviewedCount_null_cases :
  unviewedCount None = 0
  /\ (forall model : AlertListModel,
         (forall i, 0 <= i < rowCount model -> alertAt model i = None) ->
         unviewedCount (Some model) = 0)
  /\ (forall before after : list (option AlertConditionData),
         unviewedCount (Some (ofList (before ++ None :: after)))
         = unviewedCount (Some (ofList (before ++ after)))).
Proof.
  split; [reflexivity|]. split.
  - intros model Hnull.
    rewrite unviewedCount_activeUnviewedCount.
    unfold activeUnviewedCount.
    rewrite filter_none; [reflexivity|].
    intros i Hi.
    unfold rows in Hi. apply in_map_iff in Hi as (k & <- & Hk).
    apply in_seq in Hk.
    unfold activeUnviewed. rewrite Hnull by lia. reflexivity.
  - intros before after.
    rewrite !unviewedCount_activeUnviewedCount, !activeUnviewedCount_ofList.
    rewrite !filter_app. reflexivity.
Qed.

End UnviewedCount.

(** A list of three alerts, one of them viewed, with a row count that is
    an [int]. *)
Lemma unviewedCount_is_active_unviewed_witness :
  let model := ViewedAlertsController.ofList
                 [Some (ViewedAlertsController.mkAlert true false);
                  Some (ViewedAlertsController.mkAlert true true);
                  Some (ViewedAlertsController.mkAlert true false)] in
  int_range (ViewedAlertsController.unviewedCount (Some model)).
Proof.
  intro model.
  apply (proj2 (unviewedCount_is_active_unviewed model)).
  unfold int_range, INT_MIN, INT_MAX. cbn. lia.
Defined.

(** A list whose two rows are both null. *)
Lemma unviewedCount_null_cases_witness :
  ViewedAlertsController.unviewedCount
    (Some (ViewedAlertsController.ofList [None; None])) = 0.
Proof.
  apply (proj1 (proj2 unviewedCount_null_cases)).
  intros i Hi. cbn in Hi.
  assert (Hcases : i = 0 \/ i = 1) by lia.
  destruct Hcases as [-> | ->]; reflexivity.
Defined.

(** * Further properties *)

(** ** File names and the extension table *)

Section FileNames.
Import DataItemListModel.

Lemma toLowerChar_dot (c : ascii) :
  Ascii.eqb (QString.toLowerChar c) "." = Ascii.eqb c ".".
Proof.
  destruct c as [[] [] [] [] [] [] [] []]; reflexivity.
Qed.

Lemma contains_dot_toLower (s : string) :
  QFileInfo.contains "." (QString.toLower s) = QFileInfo.contains "." s.
Proof.
  induction s as [|c s IH]; [reflexivity|].
  cbn [QString.toLower QFileInfo.contains].
  rewrite toLowerChar_dot, IH. reflexivity.
Qed.

(** A name without a dot has no suffix; a name with one splits at its
    first dot. *)
Lemma afterFirstDot_split (name : string) :
  if QFileInfo.contains "." name
  then exists stem,
      name = (stem ++ "." ++ QFileInfo.afterFirstDot name)%string
      /\ QFileInfo.contains "." stem = false
  else QFileInfo.afterFirstDot name = "".
Proof.
  induction name as [|c name IH]; [reflexivity|].
  cbn [QFileInfo.contains QFileInfo.afterFirstDot].
  destruct (Ascii.eqb_spec c ".") as [->|Hc]; cbn [orb].
  - exists "". split; reflexivity.
  - destruct (QFileInfo.contains "." name).
    + destruct IH as (stem & Hname & Hstem).
      exists (String c stem). split.
      * cbn [String.append]. f_equal. exact Hname.
      * cbn [QFileInfo.contains]. rewrite Hstem.
        apply Ascii.eqb_neq in Hc. rewrite Hc. reflexivity.
    + exact IH.
Qed.

Lemma eqb_dotless (e low : string) :
  QFileInfo.contains "." e = false ->
  QFileInfo.contains "." low = true ->
  String.eqb e low = false.
Proof.
  intros He Hlow. apply String.eqb_neq. intros ->. congruence.
Qed.

Lemma lookupTable_dotted (tbl : list (string * DataType)) (low : string) :
  Forall (fun entry => QFileInfo.contains "." (fst entry) = false) tbl ->
  QFileInfo.contains "." low = true ->
  lookupTable tbl low = Unknown.
Proof.
  intros Htbl Hlow. induction Htbl as [|[e ty] tbl He _ IH]; [reflexivity|].
  cbn [lookupTable]. cbn [fst] in He.
  rewrite (eqb_dotless e low He Hlow). exact IH.
Qed.

Lemma tableType_dotted (suffix : string) :
  QFileInfo.contains "." suffix = true -> tableType suffix = Unknown.
Proof.
  intro Hdot. unfold tableType.
  rewrite String.eqb_sym, (eqb_dotless "geodatabase" suffix eq_refl Hdot).
  apply lookupTable_dotted.
  - unfold insensitiveTable. repeat constructor.
  - rewrite contains_dot_toLower. exact Hdot.
Qed.

(** X1: only a file name with exactly one dot gets a known type: the name is a
    stem, a dot and a suffix, neither with a dot in it.  A name without a
    dot, and a name with a second dot such as [roads.2024.shp], are
    unknown. *)
Theorem known_type_needs_one_dot (fullPath : string) :
  dataType (DataItem_ctor fullPath) <> Unknown ->
  exists stem suffix,
    fileName (DataItem_ctor fullPath) = (stem ++ "." ++ suffix)%string
    /\ QFileInfo.contains "." stem = false
    /\ QFileInfo.contains "." suffix = false
    /\ QFileInfo.completeSuffix fullPath = suffix.
Proof.
  rewrite dataType_tableType. unfold QFileInfo.completeSuffix.
  cbn [fileName DataItem_ctor].
  pose proof (afterFirstDot_split (QFileInfo.fileName fullPath)) as Hsplit.
  destruct (QFileInfo.contains "." (QFileInfo.fileName fullPath)).
  - destruct Hsplit as (stem & Hname & Hstem). intro Hknown.
    exists stem, (QFileInfo.afterFirstDot (QFileInfo.fileName fullPath)).
    repeat split; try assumption.
    destruct (QFileInfo.contains "." (QFileInfo.afterFirstDot _)) eqn:Hdot;
      [|reflexivity].
    contradiction Hknown. apply tableType_dotted. exact Hdot.
  - rewrite Hsplit. intro Hknown. contradiction Hknown. reflexivity.
Qed.

Lemma lookupTable_found (tbl : list (string * DataType)) (key : string) :
  lookupTable tbl key <> Unknown -> In (key, lookupTable tbl key) tbl.
Proof.
  induction tbl as [|[e ty] tbl IH]; cbn [lookupTable]; intro H.
  - contradiction H. reflexivity.
  - destruct (String.eqb_spec e key) as [->|_].
    + left. reflexivity.
    + right. apply IH. exact H.
Qed.

(** X2: a known type always comes from the table: the suffix is the exact
    name [geodatabase], or a name listed with that type, up to case.
    Nothing else is given a known type. *)
Theorem known_type_is_listed (fullPath : string) :
  let suffix := QFileInfo.completeSuffix fullPath in
  let ty := dataType (DataItem_ctor fullPath) in
  ty <> Unknown ->
  (suffix = "geodatabase" /\ ty = Geodatabase)
  \/ (exists e, In (e, ty) insensitiveTable /\ QString.eq_ignore_case suffix e).
Proof.
  intros suffix ty. subst ty. rewrite dataType_tableType. fold suffix.
  unfold tableType.
  destruct (String.eqb_spec suffix "geodatabase") as [Heq|_]; intro Hknown.
  - left. split; [exact Heq|reflexivity].
  - right. exists (QString.toLower suffix). split.
    + apply lookupTable_found. exact Hknown.
    + unfold QString.eq_ignore_case. symmetry. apply toLower_idempotent.
Qed.

Lemma afterLastSlash_no_slash (name acc : string) :
  QFileInfo.contains "/" name = false ->
  QFileInfo.afterLastSlash name acc = acc.
Proof.
  revert acc. induction name as [|c name IH]; intros acc H; [reflexivity|].
  cbn [QFileInfo.contains] in H. apply orb_false_iff in H as [Hc Hname].
  cbn [QFileInfo.afterLastSlash]. rewrite Hc. apply IH. exact Hname.
Qed.

Lemma afterLastSlash_directory (dir name acc : string) :
  QFileInfo.afterLastSlash (dir ++ String "/" name) acc
  = QFileInfo.afterLastSlash name name.
Proof.
  revert acc. induction dir as [|c dir IH]; intro acc.
  - reflexivity.
  - cbn [String.append QFileInfo.afterLastSlash].
    destruct (Ascii.eqb c "/"); apply IH.
Qed.

(** X3: the directory plays no part: an item built from [dir/name] has the
    file name [name] and the data type of [name] alone, whatever dots or
    extensions the directory carries. *)
Theorem directory_is_ignored (dir name : string) :
  QFileInfo.contains "/" name = false ->
  fileName (DataItem_ctor (dir ++ "/" ++ name)) = name
  /\ dataType (DataItem_ctor (dir ++ "/" ++ name)) = dataType (DataItem_ctor name).
Proof.
  intro Hname.
  assert (Hfile : QFileInfo.fileName (dir ++ "/" ++ name) = name).
  { unfold QFileInfo.fileName. cbn [String.append].
    rewrite afterLastSlash_directory. apply afterLastSlash_no_slash. exact Hname. }
  assert (Hself : QFileInfo.fileName name = name)
    by (apply afterLastSlash_no_slash; exact Hname).
  split; [exact Hfile|].
  rewrite !dataType_tableType. unfold QFileInfo.completeSuffix.
  rewrite Hfile, Hself. reflexivity.
Qed.

End FileNames.

(** A tile package: one dot, a listed suffix in upper case. *)
Lemma known_type_needs_one_dot_witness :
  exists stem suffix,
    DataItemListModel.fileName (DataItemListModel.DataItem_ctor "/maps/base.TPK")
    = (stem ++ "." ++ suffix)%string
    /\ QFileInfo.contains "." stem = false
    /\ QFileInfo.contains "." suffix = false
    /\ QFileInfo.completeSuffix "/maps/base.TPK" = suffix.
Proof.
  apply (known_type_needs_one_dot "/maps/base.TPK"). discriminate.
Defined.

(** A KML archive named in mixed case. *)
Lemma known_type_is_listed_witness :
  ("Kmz" = "geodatabase" /\ DataItemListModel.Kml = DataItemListModel.Geodatabase)
  \/ (exists e, In (e, DataItemListModel.Kml) DataItemListModel.insensitiveTable
                /\ QString.eq_ignore_case "Kmz" e).
Proof.
  apply (known_type_is_listed "/maps/tour.Kmz"). discriminate.
Defined.

(** A shapefile below a directory whose name carries its own extension. *)
Lemma directory_is_ignored_witness :
  DataItemListModel.fileName
    (DataItemListModel.DataItem_ctor "/maps.tpk/2024.01/survey.shp") = "survey.shp"
  /\ DataItemListModel.dataType
       (DataItemListModel.DataItem_ctor "/maps.tpk/2024.01/survey.shp")
     = DataItemListModel.dataType (DataItemListModel.DataItem_ctor "survey.shp").
Proof.
  apply (directory_is_ignored "/maps.tpk/2024.01" "survey.shp"). reflexivity.
Defined.

(** ** Accessors, notifications and role names of the list model *)

Section ModelAccessors.
Import DataItemListModel.

Lemma accessors_at (m : Model) (index : Z) (item : DataItem) :
  0 <= index ->
  nth_error (m_dataItems m) (Z.to_nat index) = Some item ->
  getDataItemType m index = Value (dataType item)
  /\ getDataItemPath m index = Value (fullPath item).
Proof.
  intros Hlo Hnth.
  assert (Hhi : index < QList.size (m_dataItems m)).
  { assert ((Z.to_nat index < List.length (m_dataItems m))%nat)
      by (apply nth_error_Some; congruence).
    unfold QList.size. lia. }
  destruct (at_in_range (m_dataItems m) index) as (a & Ha & Hat); [lia|].
  assert (a = item) as -> by congruence.
  unfold getDataItemType, getDataItemPath.
  rewrite (geb_false _ _ Hhi), Hat. split; reflexivity.
Qed.

(** X4: for an index within [0, size) the two accessors return the data type
    and the full path of the item stored at that row, the path being the
    one [data] returns for the full-path role. *)
Theorem accessors_in_range (m : Model) (index : Z) :
  0 <= index < QList.size (m_dataItems m) ->
  exists item,
    nth_error (m_dataItems m) (Z.to_nat index) = Some item
    /\ getDataItemType m index = Value (dataType item)
    /\ getDataItemPath m index = Value (fullPath item)
    /\ (forall fullPathRole fileNameRole column,
           data fullPathRole fileNameRole m (mkIndex index column) fullPathRole
           = Value (OfString (fullPath item))).
Proof.
  intros [Hlo Hhi].
  destruct (at_in_range (m_dataItems m) index) as (item & Hnth & _);
    [split; assumption|].
  exists item. split; [exact Hnth|].
  destruct (accessors_at m index item Hlo Hnth) as [Hty Hpath].
  split; [exact Hty|]. split; [exact Hpath|].
  intros fp fn column.
  rewrite (data_in_range fp fn m (mkIndex index column) fp item Hlo Hnth).
  rewrite Z.eqb_refl. reflexivity.
Qed.

Lemma data_returns (fp fn : Z) (m : Model) (index : QModelIndex) (role : Z) :
  data fp fn m index role <> OutOfRange.
Proof.
  destruct (Z_lt_dec (row index) 0) as [Hneg|Hpos].
  - rewrite data_out_of_range by (left; exact Hneg). discriminate.
  - destruct (Z_lt_dec (row index) (rowCount m invalidIndex)) as [Hin|Hout].
    + destruct (at_in_range (m_dataItems m) (row index)) as (item & Hnth & _);
        [split; [lia|exact Hin]|].
      rewrite (data_in_range fp fn m index role item) by (lia || exact Hnth).
      discriminate.
    + rewrite data_out_of_range by (right; lia). discriminate.
Qed.

(** X5: the only calls that read outside the list are [getDataItemType] and
    [getDataItemPath] with a negative index: every other operation, on any
    model and with any argument, returns. *)
Theorem run_faults_iff (op : Operation) (m : Model) :
  run op m = OutOfRange
  <-> exists index,
      index < 0 /\ (op = OpGetDataItemType index \/ op = OpGetDataItemPath index).
Proof.
  split.
  - destruct op as [p| |parent|fp fn index role|index|index]; cbn [run];
      try discriminate.
    + pose proof (data_returns fp fn m index role) as Hret.
      destruct (data fp fn m index role); [discriminate|contradiction].
    + intro H. exists index. split; [|left; reflexivity].
      destruct (Z_lt_dec index 0) as [Hneg|Hpos]; [exact Hneg|exfalso].
      destruct (Z_lt_dec index (QList.size (m_dataItems m))) as [Hin|Hout].
      * destruct (at_in_range (m_dataItems m) index) as (item & Hnth & _); [lia|].
        rewrite (proj1 (accessors_at m index item ltac:(lia) Hnth)) in H.
        discriminate.
      * rewrite (proj1 (accessors_past_the_end m index ltac:(lia))) in H.
        discriminate.
    + intro H. exists index. split; [|right; reflexivity].
      destruct (Z_lt_dec index 0) as [Hneg|Hpos]; [exact Hneg|exfalso].
      destruct (Z_lt_dec index (QList.size (m_dataItems m))) as [Hin|Hout].
      * destruct (at_in_range (m_dataItems m) index) as (item & Hnth & _); [lia|].
        rewrite (proj2 (accessors_at m index item ltac:(lia) Hnth)) in H.
        discriminate.
      * rewrite (proj2 (accessors_past_the_end m index ltac:(lia))) in H.
        discriminate.
  - intros (index & Hneg & [-> | ->]); cbn [run].
    + rewrite (proj1 (negative_index_reads_outside m index Hneg)). reflexivity.
    + rewrite (proj2 (negative_index_reads_outside m index Hneg)). reflexivity.
Qed.

(** X6: [addDataItem] makes one more row; the new last row holds the path
    added and the type of its suffix by the table, and the accessors answer
    for the rows before it as they did. *)
Theorem addDataItem_then_accessors (m : Model) (path : string) :
  let m' := addDataItem m path in
  let k := rowCount m invalidIndex in
  rowCount m' invalidIndex = k + 1
  /\ getDataItemPath m' k = Value path
  /\ getDataItemType m' k = Value (tableType (QFileInfo.completeSuffix path))
  /\ (forall index, 0 <= index < k ->
                    getDataItemPath m' index = getDataItemPath m index
                    /\ getDataItemType m' index = getDataItemType m index).
Proof.
  intros m' k. subst m' k. unfold rowCount, QList.count.
  assert (Hlast : nth_error (m_dataItems (addDataItem m path))
                    (Z.to_nat (Z.of_nat (List.length (m_dataItems m))))
                  = Some (DataItem_ctor path)).
  { rewrite items_addDataItem, Nat2Z.id, nth_error_app2 by lia.
    rewrite Nat.sub_diag. reflexivity. }
  destruct (accessors_at _ _ _ (Nat2Z.is_nonneg _) Hlast) as [Hty Hpath].
  split; [|split; [|split]].
  - rewrite items_addDataItem, length_app. cbn [List.length]. lia.
  - exact Hpath.
  - rewrite Hty, dataType_tableType. reflexivity.
  - intros index [Hlo Hhi].
    destruct (at_in_range (m_dataItems m) index) as (item & Hnth & _);
      [unfold QList.size; lia|].
    assert (Hnth' : nth_error (m_dataItems (addDataItem m path)) (Z.to_nat index)
                    = Some item).
    { rewrite items_addDataItem, nth_error_app1; [exact Hnth|].
      apply nth_error_Some. congruence. }
    destruct (accessors_at m index item Hlo Hnth) as [-> ->].
    destruct (accessors_at _ index item Hlo Hnth') as [-> ->].
    split; reflexivity.
Qed.

(** X7: after [clear()] and then [N] calls of [addDataItem], whatever the model
    held before, there are [N] rows; row [j] is the [j]-th path added with
    the type of its suffix, and the index [N] gets the defaults. *)
Theorem clear_then_append (m : Model) (paths : list string) :
  let m' := fold_left addDataItem paths (clear m) in
  let n := Z.of_nat (List.length paths) in
  rowCount m' invalidIndex = n
  /\ (forall (j : nat) (p : string),
         nth_error paths j = Some p ->
         getDataItemPath m' (Z.of_nat j) = Value p
         /\ getDataItemType m' (Z.of_nat j)
            = Value (tableType (QFileInfo.completeSuffix p)))
  /\ getDataItemPath m' n = Value EmptyString
  /\ getDataItemType m' n = Value Unknown.
Proof.
  intros m' n. subst m' n.
  assert (Hitems : m_dataItems (fold_left addDataItem paths (clear m))
                   = map DataItem_ctor paths)
    by (rewrite items_addDataItems, items_clear; reflexivity).
  split; [|split].
  - unfold rowCount, QList.count. rewrite Hitems, length_map. reflexivity.
  - intros j p Hj.
    assert (Hnth : nth_error (m_dataItems (fold_left addDataItem paths (clear m)))
                     (Z.to_nat (Z.of_nat j)) = Some (DataItem_ctor p))
      by (rewrite Hitems, Nat2Z.id, nth_error_map, Hj; reflexivity).
    destruct (accessors_at _ _ _ (Nat2Z.is_nonneg _) Hnth) as [Hty Hpath].
    split; [exact Hpath|].
    rewrite Hty, dataType_tableType. reflexivity.
  - assert (Hsize : QList.size (m_dataItems (fold_left addDataItem paths (clear m)))
                    <= Z.of_nat (List.length paths))
      by (unfold QList.size; rewrite Hitems, length_map; lia).
    destruct (accessors_past_the_end _ _ Hsize) as [Hty Hpath].
    split; assumption.
Qed.

End ModelAccessors.

(** Row 1 of a model of two files. *)
Lemma accessors_in_range_witness :
  let m := fold_left DataItemListModel.addDataItem
             ["/data/survey.shp"; "/data/area.markup"] DataItemListModel.newModel in
  DataItemListModel.getDataItemType m 1 = Value DataItemListModel.Markup
  /\ DataItemListModel.getDataItemPath m 1 = Value "/data/area.markup".
Proof.
  intro m.
  destruct (accessors_in_range m 1 ltac:(cbn; lia)) as (item & Hitem & Hty & Hpath & _).
  injection Hitem as <-. split; [exact Hty|exact Hpath].
Defined.

(** The type accessor at index -3 of an empty model. *)
Lemma run_faults_iff_witness :
  DataItemListModel.run (DataItemListModel.OpGetDataItemType (-3))
    DataItemListModel.newModel = OutOfRange.
Proof.
  apply (proj2 (run_faults_iff (DataItemListModel.OpGetDataItemType (-3))
                  DataItemListModel.newModel)).
  exists (-3). split; [lia|left; reflexivity].
Defined.

(** A raster added to a model of one file. *)
Lemma addDataItem_then_accessors_witness :
  let m := DataItemListModel.addDataItem DataItemListModel.newModel "/data/base.tpk" in
  let m' := DataItemListModel.addDataItem m "/data/dem.TIFF" in
  DataItemListModel.getDataItemPath m' 0 = DataItemListModel.getDataItemPath m 0
  /\ DataItemListModel.getDataItemType m' 1 = Value DataItemListModel.Raster.
Proof.
  intros m m'.
  destruct (addDataItem_then_accessors m "/data/dem.TIFF") as (_ & _ & Hty & Hold).
  split.
  - apply (Hold 0). cbn. lia.
  - exact Hty.
Defined.

(** Two files added after a model of one file is cleared. *)
Lemma clear_then_append_witness :
  let m := DataItemListModel.addDataItem DataItemListModel.newModel "/data/base.tpk" in
  let m' := fold_left DataItemListModel.addDataItem
              ["/data/survey.shp"; "/data/tour.kmz"] (DataItemListModel.clear m) in
  DataItemListModel.getDataItemPath m' 1 = Value "/data/tour.kmz"
  /\ DataItemListModel.getDataItemType m' 1 = Value DataItemListModel.Kml.
Proof.
  intros m m'.
  destruct (clear_then_append m ["/data/survey.shp"; "/data/tour.kmz"])
    as (_ & Hrows & _).
  exact (Hrows 1%nat "/data/tour.kmz" eq_refl).
Defined.

(** ** Which calls leave the stored items as they were *)

Section ItemsAfterCalls.
Import DataItemListModel.




End ItemsAfterCalls.


(** ** Notifications and role names *)

Section ModelNotifications.
Import DataItemListModel.

Lemma viewTrack_app (v : ViewState) (ns ns' : list Notification) :
  viewTrack v (ns ++ ns')
  = match viewTrack v ns with
    | Some v' => viewTrack v' ns'
    | None => None
    end.
Proof.
  revert v. induction ns as [|n ns IH]; intro v; [reflexivity|].
  cbn [app viewTrack]. destruct (viewStep v n); [apply IH|reflexivity].
Qed.

(** What an operation that returns adds to the notifications. *)
Lemma run_notified (op : Operation) (m m' : Model) :
  run op m = Value m' ->
  notified m'
  = (notified m
     ++ match op with
        | OpAddDataItem _ =>
            [BeginInsertRows invalidIndex (rowCount m invalidIndex)
                             (rowCount m invalidIndex);
             EndInsertRows]
        | OpClear => [BeginResetModel; EndResetModel]
        | _ => []
        end)%list.
Proof.
  destruct op; cbn [run]; intro H.
  - injection H as <-. cbn. rewrite <- app_assoc. reflexivity.
  - injection H as <-. cbn. rewrite <- app_assoc. reflexivity.
  - injection H as <-. now rewrite app_nil_r.
  - destruct (data _ _ _ _ _); cbn [bindAccess] in H; [|discriminate].
    injection H as <-. now rewrite app_nil_r.
  - destruct (getDataItemType _ _); cbn [bindAccess] in H; [|discriminate].
    injection H as <-. now rewrite app_nil_r.
  - destruct (getDataItemPath _ _); cbn [bindAccess] in H; [|discriminate].
    injection H as <-. now rewrite app_nil_r.
Qed.

(** X8: a view that starts with the constructed model and follows its
    notifications accepts every one of them and knows the row count: each
    begin is closed by its end before anything else is announced, each
    insertion announces the one row at the end of the list, and the list
    is empty after each reset. *)
Theorem view_tracks_rowCount (m : Model) :
  reachable m ->
  viewTrack (Idle 0) (notified m) = Some (Idle (rowCount m invalidIndex)).
Proof.
  induction 1 as [|op m m' _ IH Hrun]; [reflexivity|].
  rewrite (run_notified op m m' Hrun), viewTrack_app, IH.
  unfold rowCount, QList.count. rewrite (run_items op m m' Hrun).
  destruct op; try reflexivity.
  cbn [viewTrack viewStep]. unfold rowCount, QList.count.
  rewrite Z.eqb_refl. cbn [andb].
  cbn [viewTrack viewStep].
  rewrite length_app. cbn [List.length].
  do 2 f_equal. lia.
Qed.

Variables FullPathRole FileNameRole : Z.
Hypothesis roles_distinct : FullPathRole <> FileNameRole.

(** X9: the role names after construction are [fullPath] and [fileName] under
    their two roles and nothing else, and they name exactly the roles for
    which [data] returns a valid variant at a row of the model. *)
Theorem roleNames_are_the_data_roles :
  let names := roleNames (constructedRoles FullPathRole FileNameRole) in
  QHash.value names FullPathRole = Some "fullPath"
  /\ QHash.value names FileNameRole = Some "fileName"
  /\ (forall role, role <> FullPathRole -> role <> FileNameRole ->
                   QHash.value names role = None)
  /\ (forall (m : Model) (index : QModelIndex) (role : Z),
         0 <= row index < rowCount m invalidIndex ->
         data FullPathRole FileNameRole m index role <> Value Invalid
         <-> QHash.value names role <> None).
Proof.
  assert (Hvalue : forall role,
             QHash.value (roleNames (constructedRoles FullPathRole FileNameRole)) role
             = if role =? FullPathRole then Some "fullPath"
               else if role =? FileNameRole then Some "fileName" else None).
  { intro role.
    unfold roleNames, constructedRoles, setupRoles, QHash.assign, QHash.value,
      QHash.empty.
    cbn [filter fst negb].
    replace (FullPathRole =? FileNameRole) with false
      by (symmetry; apply Z.eqb_neq; exact roles_distinct).
    cbn [negb find fst snd].
    rewrite (Z.eqb_sym FileNameRole role), (Z.eqb_sym FullPathRole role).
    destruct (Z.eqb_spec role FileNameRole) as [->|_].
    - replace (FileNameRole =? FullPathRole) with false
        by (symmetry; apply Z.eqb_neq; congruence).
      reflexivity.
    - destruct (role =? FullPathRole); reflexivity. }
  cbv zeta. split; [|split; [|split]].
  - rewrite Hvalue, Z.eqb_refl. reflexivity.
  - rewrite Hvalue, Z.eqb_refl.
    replace (FileNameRole =? FullPathRole) with false
      by (symmetry; apply Z.eqb_neq; congruence).
    reflexivity.
  - intros role H1 H2. rewrite Hvalue.
    apply Z.eqb_neq in H1, H2. now rewrite H1, H2.
  - intros m index role [Hlo Hhi].
    destruct (at_in_range (m_dataItems m) (row index)) as (item & Hnth & _);
      [split; assumption|].
    rewrite (data_in_range _ _ m index role item Hlo Hnth), Hvalue.
    destruct (role =? FullPathRole); [split; discriminate|].
    destruct (role =? FileNameRole); [split; discriminate|].
    split; intro H; contradiction H; reflexivity.
Qed.

End ModelNotifications.

(** A model after an insertion, a read, a reset and two insertions. *)
Lemma view_tracks_rowCount_witness :
  let m := fold_left DataItemListModel.addDataItem ["b.shp"; "c.kml"]
             (DataItemListModel.clear
                (DataItemListModel.addDataItem DataItemListModel.newModel "a.tpk")) in
  DataItemListModel.viewTrack (DataItemListModel.Idle 0)
    (DataItemListModel.notified m) = Some (DataItemListModel.Idle 2).
Proof.
  intro m.
  apply (view_tracks_rowCount m).
  apply (DataItemListModel.reach_run (DataItemListModel.OpAddDataItem "c.kml")
           (DataItemListModel.addDataItem
              (DataItemListModel.clear
                 (DataItemListModel.addDataItem DataItemListModel.newModel "a.tpk"))
              "b.shp")); [|reflexivity].
  apply (DataItemListModel.reach_run (DataItemListModel.OpAddDataItem "b.shp")
           (DataItemListModel.clear
              (DataItemListModel.addDataItem DataItemListModel.newModel "a.tpk")));
    [|reflexivity].
  apply (DataItemListModel.reach_run DataItemListModel.OpClear
           (DataItemListModel.addDataItem DataItemListModel.newModel "a.tpk"));
    [|reflexivity].
  apply (DataItemListModel.reach_run (DataItemListModel.OpGetDataItemType 0)
           (DataItemListModel.addDataItem DataItemListModel.newModel "a.tpk"));
    [|reflexivity].
  apply (DataItemListModel.reach_run (DataItemListModel.OpAddDataItem "a.tpk")
           DataItemListModel.newModel); [|reflexivity].
  apply DataItemListModel.reach_ctor.
Defined.

(** The roles [Qt::UserRole + 1] and [Qt::UserRole + 2]. *)
Lemma roleNames_are_the_data_roles_witness :
  QHash.value (DataItemListModel.roleNames
                 (DataItemListModel.constructedRoles 257 258)) 258
  = Some "fileName"
  /\ QHash.value (DataItemListModel.roleNames
                    (DataItemListModel.constructedRoles 257 258)) 0 = None.
Proof.
  destruct (roleNames_are_the_data_roles 257 258 ltac:(lia)) as (_ & Hname & Hnone & _).
  split; [exact Hname|].
  apply Hnone; lia.
Defined.

(** ** The destructor's trace *)

Section DestructorTrace.
Import AlertSource.

Lemma invoked_same (s : Signal) (rs : list Receiver) :
  invoked s (map (SlotInvoked s) rs) = rs.
Proof.
  induction rs as [|r rs IH]; [reflexivity|].
  cbn [map invoked]. destruct s; cbn [Signal_eqb]; rewrite IH; reflexivity.
Qed.

Lemma invoked_other (s s' : Signal) (rs : list Receiver) :
  Signal_eqb s' s = false -> invoked s (map (SlotInvoked s') rs) = [].
Proof.
  intro H. induction rs as [|r rs IH]; [reflexivity|].
  cbn [map invoked]. rewrite H. exact IH.
Qed.

(** X10: the trace of the destructor has three parts.  First the slots
    connected to [noLongerValid] run, once per connection and in connection
    order; only then [destroyed] is emitted, after which no slot runs for
    [noLongerValid]; the object is gone at the very end, and only there. *)
Theorem dtor_trace_order (src : Source) :
  exists first second,
    dtor src = (first ++ Emitted destroyed :: second ++ [ObjectGone])%list
    /\ invoked noLongerValid first = receivers src noLongerValid
    /\ invoked noLongerValid second = []
    /\ ~ In (Emitted destroyed) first
    /\ ~ In ObjectGone first /\ ~ In ObjectGone second.
Proof.
  exists (Emitted noLongerValid
          :: map (SlotInvoked noLongerValid) (receivers src noLongerValid)),
    (map (SlotInvoked destroyed) (receivers src destroyed)).
  split; [reflexivity|].
  split; [cbn [invoked]; apply invoked_same|].
  split; [apply invoked_other; reflexivity|].
  split; [|split].
  - intros [H|H]; [discriminate|].
    apply in_map_iff in H as (r & Hr & _). discriminate.
  - intros [H|H]; [discriminate|].
    exact (gone_not_in_invocations _ _ H).
  - apply gone_not_in_invocations.
Qed.

End DestructorTrace.

(** ** More on the count of unviewed alerts *)

Section UnviewedCountMore.
Import ViewedAlertsController.

Lemma filter_all_iff {A : Type} (f : A -> bool) (l : list A) :
  List.length (filter f l) = List.length l <-> (forall x, In x l -> f x = true).
Proof.
  induction l as [|x l IH]; [cbn; tauto|].
  pose proof (filter_length_le f l) as Hle.
  cbn [filter]. destruct (f x) eqn:Hx; cbn [List.length].
  - split.
    + intros H y [<-|Hy]; [exact Hx|]. apply IH; [lia|exact Hy].
    + intro H. f_equal. apply IH. intros y Hy. apply H. right. exact Hy.
  - split; [lia|].
    intro H. specialize (H x (or_introl eq_refl)). congruence.
Qed.

Lemma filter_none_iff {A : Type} (f : A -> bool) (l : list A) :
  List.length (filter f l) = 0%nat <-> (forall x, In x l -> f x = false).
Proof.
  split.
  - intros H x Hx. destruct (f x) eqn:Hfx; [|reflexivity].
    assert (Hin : In x (filter f l)) by (apply filter_In; split; assumption).
    destruct (filter f l); [contradiction|discriminate].
  - intro H. rewrite filter_none by exact H. reflexivity.
Qed.

Lemma in_rows (model : AlertListModel) (i : Z) :
  In i (rows model) <-> 0 <= i < rowCount model.
Proof.
  unfold rows. rewrite in_map_iff. split.
  - intros (k & <- & Hk). apply in_seq in Hk. lia.
  - intro H. exists (Z.to_nat i). split; [lia|]. apply in_seq. lia.
Qed.

Lemma length_rows (model : AlertListModel) :
  Z.of_nat (List.length (rows model)) = Z.max 0 (rowCount model).
Proof.
  unfold rows. rewrite length_map, length_seq. lia.
Qed.

(** X11: the count lies between 0 and the number of rows.  It is 0 exactly when
    no row holds an alert that is active and not viewed, and it is the
    number of rows exactly when every row does. *)
Theorem unviewedCount_extremes (model : AlertListModel) :
  let count := unviewedCount (Some model) in
  0 <= count <= Z.max 0 (rowCount model)
  /\ (count = 0
      <-> forall i, 0 <= i < rowCount model -> activeUnviewed model i = false)
  /\ (count = Z.max 0 (rowCount model)
      <-> forall i, 0 <= i < rowCount model -> activeUnviewed model i = true).
Proof.
  cbv zeta. rewrite unviewedCount_activeUnviewedCount.
  split; [apply activeUnviewedCount_bounds|].
  unfold activeUnviewedCount. split; split.
  - intros H i Hi.
    apply (proj1 (filter_none_iff (activeUnviewed model) (rows model)));
      [lia|apply in_rows; exact Hi].
  - intro H.
    rewrite (proj2 (filter_none_iff (activeUnviewed model) (rows model)));
      [reflexivity|].
    intros i Hi. apply H, in_rows, Hi.
  - intros H i Hi. rewrite <- length_rows in H.
    apply (proj1 (filter_all_iff (activeUnviewed model) (rows model)));
      [lia|apply in_rows; exact Hi].
  - intro H. rewrite <- length_rows. f_equal.
    apply filter_all_iff. intros i Hi. apply H, in_rows, Hi.
Qed.

(** X12: the loop reads the rows from 0 up to the row count and nothing else:
    two lists with the same row count and the same alerts in these rows
    have the same count, whatever [alertAt] answers elsewhere. *)
Theorem unviewedCount_reads_rows_only (model model' : AlertListModel) :
  rowCount model = rowCount model' ->
  (forall i, 0 <= i < rowCount model -> alertAt model i = alertAt model' i) ->
  unviewedCount (Some model) = unviewedCount (Some model').
Proof.
  intros Hrows Hsame.
  rewrite !unviewedCount_activeUnviewedCount.
  unfold activeUnviewedCount.
  assert (Hlist : rows model' = rows model) by (unfold rows; now rewrite Hrows).
  rewrite Hlist. do 2 f_equal.
  apply filter_ext_in. intros i Hi. apply in_rows in Hi.
  unfold activeUnviewed. rewrite (Hsame i Hi). reflexivity.
Qed.

(** X13: the count of a list is the sum of the counts of its parts, and a row
    that goes from unviewed to viewed, the alert being active, lowers the
    count by one. *)
Theorem unviewedCount_additive (before after : list (option AlertConditionData)) :
  unviewedCount (Some (ofList (before ++ after)))
  = unviewedCount (Some (ofList before)) + unviewedCount (Some (ofList after))
  /\ unviewedCount (Some (ofList (before ++ Some (mkAlert true true) :: after)))
     = unviewedCount (Some (ofList (before ++ Some (mkAlert true false) :: after))) - 1.
Proof.
  rewrite !unviewedCount_activeUnviewedCount, !activeUnviewedCount_ofList.
  rewrite !filter_app, !length_app. cbn [filter counted active viewed andb negb].
  cbn [List.length]. lia.
Qed.

Lemma connected_receive (sigs : list ModelSignal) (c : Controller) :
  connected (fold_left receive sigs c) = connected c.
Proof.
  revert c. induction sigs as [|s sigs IH]; intro c; [reflexivity|].
  cbn [fold_left]. rewrite IH. reflexivity.
Qed.

Lemma changeCount_receive (c : Controller) (s : ModelSignal) :
  changeCount (receive c s)
  = (changeCount c + List.length (filter (ModelSignal_eqb s) (connected c)))%nat.
Proof.
  unfold changeCount, receive. cbn [events].
  rewrite filter_app, length_app. f_equal.
  induction (filter (ModelSignal_eqb s) (connected c)) as [|x l IH];
    [reflexivity|].
  cbn [map filter List.length]. rewrite IH. reflexivity.
Qed.

Lemma changeCount_fold (sigs : list ModelSignal) (c : Controller) :
  changeCount (fold_left receive sigs c)
  = (changeCount c
     + List.length
         (flat_map (fun s => filter (ModelSignal_eqb s) (connected c)) sigs))%nat.
Proof.
  revert c. induction sigs as [|s sigs IH]; intro c; [cbn; lia|].
  cbn [fold_left flat_map]. rewrite IH, changeCount_receive.
  rewrite length_app. cbn [receive connected]. lia.
Qed.

Lemma first_event_fold (sigs : list ModelSignal) (c : Controller) :
  hd_error (events c) = Some ToolAdded ->
  hd_error (events (fold_left receive sigs c)) = Some ToolAdded.
Proof.
  revert c. induction sigs as [|s sigs IH]; intros c Hc; [exact Hc|].
  cbn [fold_left]. apply IH. cbn [receive events].
  destruct (events c); [discriminate|exact Hc].
Qed.

(** X14: a controller built while an alert list exists emits
    [unviewedCountChanged] once on construction and once for each
    [dataChanged], [rowsInserted] and [rowsRemoved] of the list, and for no
    other signal; a controller built without a list never emits it.  The
    tool is added in both cases, before anything else. *)
Theorem changes_follow_three_signals
        (instance : option AlertListModel) (sigs : list ModelSignal) :
  let c := fold_left receive sigs (newController instance) in
  changeCount c
  = match instance with
    | Some _ =>
        S (List.length
             (filter (fun s => existsb (ModelSignal_eqb s)
                                  [dataChanged; rowsInserted; rowsRemoved]) sigs))
    | None => 0%nat
    end
  /\ hd_error (events c) = Some ToolAdded.
Proof.
  cbv zeta. split.
  - rewrite changeCount_fold.
    destruct instance as [model|]; cbn [newController connected].
    + cbn [app]. change (changeCount _) with 1%nat. cbn [Nat.add]. f_equal.
      induction sigs as [|s sigs IH]; [reflexivity|].
      cbn [flat_map]. rewrite length_app, IH.
      destruct s; reflexivity.
    + change (changeCount _) with 0%nat. cbn [Nat.add].
      induction sigs as [|s sigs IH]; [reflexivity|exact IH].
  - apply first_event_fold. destruct instance; reflexivity.
Qed.

End UnviewedCountMore.

(** Two alerts, both active and not viewed. *)
Lemma unviewedCount_extremes_witness :
  ViewedAlertsController.unviewedCount
    (Some (ViewedAlertsController.ofList
             [Some (ViewedAlertsController.mkAlert true false);
              Some (ViewedAlertsController.mkAlert true false)])) = 2.
Proof.
  apply (proj2 (proj2 (proj2 (unviewedCount_extremes
           (ViewedAlertsController.ofList
              [Some (ViewedAlertsController.mkAlert true false);
               Some (ViewedAlertsController.mkAlert true false)]))))).
  intros i Hi. cbn in Hi.
  assert (Hcases : i = 0 \/ i = 1) by lia.
  destruct Hcases as [-> | ->]; reflexivity.
Defined.

(** A list of one alert, and an [alertAt] that also answers for row 1. *)
Lemma unviewedCount_reads_rows_only_witness :
  ViewedAlertsController.unviewedCount
    (Some (ViewedAlertsController.mkAlertList 1
             (fun _ => Some (ViewedAlertsController.mkAlert true false))))
  = ViewedAlertsController.unviewedCount
      (Some (ViewedAlertsController.ofList
               [Some (ViewedAlertsController.mkAlert true false)])).
Proof.
  apply unviewedCount_reads_rows_only.
  - reflexivity.
  - intros i Hi. cbn in Hi. assert (i = 0) as -> by lia. reflexivity.
Defined.
